(** * vu-meter-react: the metering core of [Meter]

    A shallow embedding of the per-frame metering pipeline of the
    [Meter] component (class [VUBallistics] and the [animate] callback
    of the [useEffect] hook), together with the properties the
    specification states about it.

    Numbers.  A JavaScript [number] is an IEEE-754 double; here it is
    idealised as a real number, so that [Math.exp], [Math.sqrt] and
    [Math.log10] are the real functions and arithmetic is exact.
    Rounding is thereby left out.  Division by zero, where a double
    gives an infinity or [NaN] and a real does not, is kept out of the
    theorems by a hypothesis (a non-empty sample window, a positive fade
    time).

    State.  [animate] reads and writes React refs and state setters; the
    embedding passes them explicitly as a record [MeterState], and one
    call of [animate] is a function from [MeterState] to [MeterState]. *)

From Stdlib Require Import Reals Lra Lia List Bool ZArith QArith Qreals.
Import ListNotations.

Local Open Scope R_scope.

(* ================================================================== *)
(** ** JavaScript arithmetic used by the component *)

Module JS.

(** [Math.log10]. *)
Definition log10 (x : R) : R := ln x / ln 10.

(** [Math.max] and [Math.min] on two numbers. *)
Definition max (a b : R) : R := Rmax a b.
Definition min (a b : R) : R := Rmin a b.

(** Truthiness of a number: [!x] holds exactly for [0] (and [NaN],
    which the real model does not have). *)
Definition falsy (x : R) : bool := if Req_dec_T x 0 then true else false.

(** [a ?? d]. *)
Definition nullish {A : Type} (a : option A) (d : A) : A :=
  match a with Some v => v | None => d end.

End JS.

(* ================================================================== *)
(** ** class VUBallistics *)

Module VUBallistics.

Record t : Type := mk {
  attackTime  : R;
  releaseTime : R;
  level       : R
}.

(** [new VUBallistics()]: the field initialisers (lines 103-105). *)
Definition new : t := mk 0.3 0.3 0.

(** [process(inputLevel, deltaTime)] (lines 109-122): the updated object
    and the returned value, which is [this.level] after the update. *)
Definition process (b : t) (inputLevel deltaTime : R) : t * R :=
  let attackCoeff  := 1 - exp (- deltaTime / attackTime b) in
  let releaseCoeff := 1 - exp (- deltaTime / releaseTime b) in
  let level' :=
    if Rgt_dec inputLevel (level b)
    then level b + (inputLevel - level b) * attackCoeff
    else level b + (inputLevel - level b) * releaseCoeff in
  (mk (attackTime b) (releaseTime b) level', level').

(** The two time constants are private and only ever set by the field
    initialisers. *)
Definition constructed (b : t) : Prop :=
  attackTime b = 0.3 /\ releaseTime b = 0.3.

End VUBallistics.

(* ================================================================== *)
(** ** Props, options and the values the effect closes over *)

Inductive Channel : Type := ChLeft | ChRight | ChMono.

Definition Channel_eqb (a b : Channel) : bool :=
  match a, b with
  | ChLeft, ChLeft | ChRight, ChRight | ChMono, ChMono => true
  | _, _ => false
  end.

(** The fields of [VUMeterOptions] that the metering loop reads. *)
Record VUMeterOptions : Type := {
  opt_peakHoldMs       : option R;
  opt_peakFadeMs       : option R;
  opt_clipThresholdDeg : option R
}.

Definition noOptions : VUMeterOptions :=
  {| opt_peakHoldMs := None; opt_peakFadeMs := None;
     opt_clipThresholdDeg := None |}.

(** The fields of [MeterProps] that the metering loop reads; the
    destructuring defaults of [Meter] are applied by [closure]. *)
Record MeterProps : Type := {
  prop_channel        : option Channel;
  prop_referenceLevel : option R;
  prop_options        : VUMeterOptions
}.

(** What [animate] closes over: [channel] and [referenceLevel] with the
    defaults of the parameter list of [Meter] (lines 129-130), and the
    three timing options with their [??] defaults (lines 354-356). *)
Record Closure : Type := {
  channel          : Channel;
  referenceLevel   : R;
  peakHoldMs       : R;
  peakFadeMs       : R;
  clipThresholdDeg : R
}.

Definition closure (p : MeterProps) : Closure :=
  {| channel          := JS.nullish (prop_channel p) ChMono;
     referenceLevel   := JS.nullish (prop_referenceLevel p) (-20);
     peakHoldMs       := JS.nullish (opt_peakHoldMs (prop_options p)) 1000;
     peakFadeMs       := JS.nullish (opt_peakFadeMs (prop_options p)) 5000;
     clipThresholdDeg := JS.nullish (opt_clipThresholdDeg (prop_options p)) 23 |}.

Definition defaultClosure : Closure :=
  closure {| prop_channel := None; prop_referenceLevel := None;
             prop_options := noOptions |}.

(* ================================================================== *)
(** ** The refs and React state of one [Meter] *)

Record MeterState : Type := {
  needleRotation    : R;
  peakLampActive    : bool;
  peakLampIntensity : R;
  vuBallisticsRef   : option VUBallistics.t;
  lastTimeRef       : R;
  lastClipTimeMsRef : option R;
  sourceChannelsRef : Z
}.

(** [useState(-25)], [useState(false)], [useState(0)], [useRef(null)],
    [useRef(0)], [useRef(null)], [useRef(1)]. *)
Definition mounted : MeterState :=
  {| needleRotation := -25; peakLampActive := false; peakLampIntensity := 0;
     vuBallisticsRef := None; lastTimeRef := 0; lastClipTimeMsRef := None;
     sourceChannelsRef := 1 |}.

(** The part of the effect body that runs before the first frame
    (lines 318-351), for an audio context and a source node that are
    both present: a fresh [VUBallistics], and for a mono meter
    [sourceChannelsRef.current = sourceNode.channelCount || 1].  The
    other refs are not touched, so they keep what an earlier run of the
    effect left in them. *)
Definition connect (c : Closure) (channelCount : Z) (s : MeterState)
  : MeterState :=
  {| needleRotation    := needleRotation s;
     peakLampActive    := peakLampActive s;
     peakLampIntensity := peakLampIntensity s;
     vuBallisticsRef   := Some VUBallistics.new;
     lastTimeRef       := lastTimeRef s;
     lastClipTimeMsRef := lastClipTimeMsRef s;
     sourceChannelsRef :=
       if Channel_eqb (channel c) ChMono
       then (if Z.eqb channelCount 0 then 1%Z else channelCount)
       else sourceChannelsRef s |}.

(* ================================================================== *)
(** ** The stages of [animate] *)

(** The accumulation loop over [dataArray] (lines 372-375). *)
Definition sumOfSquares (dataArray : list R) : R :=
  fold_left (fun acc x => acc + x * x) dataArray 0.

Definition rms (dataArray : list R) : R :=
  sqrt (sumOfSquares dataArray / INR (length dataArray)).

(** [rms] is line 376.  [dbFS_raw] is [dbFS] as line 378 sets it, before
    the channel correction. *)
Definition dbFS_raw (dataArray : list R) : R :=
  20 * JS.log10 (JS.max (rms dataArray) 0.00001).

(** [dbFS] after [if (channel === "mono" && sourceChannelsRef.current === 2)]
    (lines 380-382). *)
Definition dbFS (ch : Channel) (sourceChannels : Z) (dataArray : list R) : R :=
  if Channel_eqb ch ChMono && Z.eqb sourceChannels 2
  then dbFS_raw dataArray + 3.8
  else dbFS_raw dataArray.

(** The ladder from [vuValue] to [angle] (lines 388-419), branch for
    branch, the unreachable ones included. *)
Definition toAngle (vuValue : R) : R :=
  if Rle_dec vuValue (-20) then -25
  else if Rge_dec vuValue 3 then 25
  else
    if Rle_dec vuValue (-20) then -23
    else if Rle_dec vuValue (-10) then -23 + ((vuValue + 20) / 10) * 7
    else if Rle_dec vuValue (-7) then -16 + ((vuValue + 10) / 3) * 4
    else if Rle_dec vuValue (-5) then -12 + ((vuValue + 7) / 2) * 4
    else if Rle_dec vuValue (-3) then -8 + ((vuValue + 5) / 2) * 5
    else if Rle_dec vuValue (-2) then -3 + ((vuValue + 3) / 1) * 3
    else if Rle_dec vuValue (-1) then 0 + ((vuValue + 2) / 1) * 3.5
    else if Rle_dec vuValue 0 then 3.5 + ((vuValue + 1) / 1) * 4.5
    else if Rle_dec vuValue 1 then 8 + (vuValue / 1) * 5
    else if Rle_dec vuValue 2 then 13 + ((vuValue - 1) / 1) * 5
    else if Rle_dec vuValue 3 then 18 + ((vuValue - 2) / 1) * 7
    else 25.

(** The peak-lamp intensity computed from the last clip time
    (lines 432-444). *)
Definition lampIntensity (c : Closure) (lastClip : option R) (currentTime : R)
  : R :=
  match lastClip with
  | None => 0
  | Some clipTime =>
      let msSinceLastClip := currentTime - clipTime in
      if Rle_dec msSinceLastClip (peakHoldMs c) then 1
      else
        let t := JS.min 1 ((msSinceLastClip - peakHoldMs c) / peakFadeMs c) in
        1 - t
  end.

(** The snap-off (lines 447-453): the pair handed to [setPeakLampActive]
    and [setPeakLampIntensity]. *)
Definition snapOff (intensity : R) : bool * R :=
  if Rle_dec intensity 0.001 then (false, 0) else (true, intensity).

(** One animation frame (lines 359-454).  [dataArray] is what
    [getFloatTimeDomainData] filled in; its length is [fftSize], which
    the effect sets to at least 32.  [analyserRef] and [vuBallisticsRef]
    are set together by the effect, so the guard of line 366 is the test
    on [vuBallisticsRef]. *)
Definition animate (c : Closure) (currentTime : R) (dataArray : list R)
           (s : MeterState) : MeterState :=
  let lastTime := if JS.falsy (lastTimeRef s) then currentTime
                  else lastTimeRef s in
  let deltaTime := (currentTime - lastTime) / 1000 in
  match vuBallisticsRef s with
  | None =>
      {| needleRotation    := needleRotation s;
         peakLampActive    := peakLampActive s;
         peakLampIntensity := peakLampIntensity s;
         vuBallisticsRef   := None;
         lastTimeRef       := currentTime;
         lastClipTimeMsRef := lastClipTimeMsRef s;
         sourceChannelsRef := sourceChannelsRef s |}
  | Some b =>
      let vuValue := dbFS (channel c) (sourceChannelsRef s) dataArray
                     - referenceLevel c in
      let angle := toAngle vuValue in
      let normalizedLevel := (angle + 25) / 50 in
      let '(b', smoothedLevel) :=
        VUBallistics.process b normalizedLevel deltaTime in
      let directRotation := smoothedLevel * 50 - 25 in
      let lastClip :=
        if Rge_dec directRotation (clipThresholdDeg c) then Some currentTime
        else lastClipTimeMsRef s in
      let '(active, shown) := snapOff (lampIntensity c lastClip currentTime) in
      {| needleRotation    := directRotation;
         peakLampActive    := active;
         peakLampIntensity := shown;
         vuBallisticsRef   := Some b';
         lastTimeRef       := currentTime;
         lastClipTimeMsRef := lastClip;
         sourceChannelsRef := sourceChannelsRef s |}
  end.

(** A session: the frames delivered after [connect], oldest first, each
    with its timestamp and the samples the analyser holds then; [trace]
    lists the state left by each frame. *)
Definition Frame : Type := (R * list R)%type.

Fixpoint trace (c : Closure) (frames : list Frame) (s : MeterState)
  : list MeterState :=
  match frames with
  | [] => []
  | f :: rest =>
      let s' := animate c (fst f) (snd f) s in
      s' :: trace c rest s'
  end.

(** Timestamps that never run backwards, starting from [t]. *)
Fixpoint nondecreasing (t : R) (ts : list R) : Prop :=
  match ts with
  | [] => True
  | t' :: rest => t <= t' /\ nondecreasing t' rest
  end.

(** The values of the locals [deltaTime] and [normalizedLevel] of a
    frame, as functions of what the frame starts from. *)
Definition deltaTimeOf (s : MeterState) (currentTime : R) : R :=
  (currentTime
   - (if JS.falsy (lastTimeRef s) then currentTime else lastTimeRef s)) / 1000.

Definition normalizedLevelOf (c : Closure) (s : MeterState) (dataArray : list R)
  : R :=
  (toAngle (dbFS (channel c) (sourceChannelsRef s) dataArray - referenceLevel c)
   + 25) / 50.

(* ================================================================== *)
(** ** The ladder on rationals *)

(** The ladder involves rational constants only, so on rational inputs
    it can be run: [toAngleQ] is the same ladder, with the same
    comparisons and the same arithmetic, on [Q].  [toAngleQ_exact]
    relates it to [toAngle]. *)
Definition toAngleQ (vuValue : Q) : Q :=
  (if Qle_bool vuValue (-20) then -25
   else if Qle_bool 3 vuValue then 25
   else
     if Qle_bool vuValue (-20) then -23
     else if Qle_bool vuValue (-10) then -23 + ((vuValue + 20) / 10) * 7
     else if Qle_bool vuValue (-7) then -16 + ((vuValue + 10) / 3) * 4
     else if Qle_bool vuValue (-5) then -12 + ((vuValue + 7) / 2) * 4
     else if Qle_bool vuValue (-3) then -8 + ((vuValue + 5) / 2) * 5
     else if Qle_bool vuValue (-2) then -3 + ((vuValue + 3) / 1) * 3
     else if Qle_bool vuValue (-1) then 0 + ((vuValue + 2) / 1) * 3.5
     else if Qle_bool vuValue 0 then 3.5 + ((vuValue + 1) / 1) * 4.5
     else if Qle_bool vuValue 1 then 8 + (vuValue / 1) * 5
     else if Qle_bool vuValue 2 then 13 + ((vuValue - 1) / 1) * 5
     else if Qle_bool vuValue 3 then 18 + ((vuValue - 2) / 1) * 7
     else 25)%Q.

(* ================================================================== *)
(** ** The wording of the specification *)

(** The estimate as the specification words it: the root of the mean of
    the squared samples, floored at 1e-5, in decibels. *)
Module LevelSpec.

Fixpoint sum (l : list R) : R :=
  match l with
  | [] => 0
  | x :: l' => x + sum l'
  end.

Definition mean (l : list R) : R := sum l / INR (length l).

Definition estimate (window : list R) : R :=
  20 * JS.log10 (Rmax (sqrt (mean (map (fun x => x ^ 2) window))) 1e-5).

End LevelSpec.

(** [clamp(x, lo, hi)] as the specification uses it. *)
Definition clamp (x lo hi : R) : R := Rmax lo (Rmin hi x).

(** What every frame leaves behind. *)
Definition in_range (s : MeterState) : Prop :=
  -25 <= needleRotation s <= 25 /\ 0 <= peakLampIntensity s <= 1.

(* ================================================================== *)
(** ** Sample states *)

(** A meter whose lamp is fading: the last clip was at time 0, the
    needle has fallen back to 22.5 degrees, and the previous frame was
    at 2700 ms. *)
Definition fading : MeterState :=
  {| needleRotation := 22.5; peakLampActive := true; peakLampIntensity := 0.66;
     vuBallisticsRef := Some (VUBallistics.mk 0.3 0.3 0.95);
     lastTimeRef := 2700; lastClipTimeMsRef := Some 0;
     sourceChannelsRef := 2 |}.

(* ================================================================== *)
(** ** Around the metering loop: window length, sizes, drawing *)

(** More of JavaScript's [Math], on the same idealised numbers. *)
Module JSMath.

(** [Math.round]: the nearest integer, halves going up. *)
Definition round (x : R) : R := IZR (Int_part (x + 0.5)).

(** [Math.log2], [2 ** y] and [Math.abs]. *)
Definition log2 (x : R) : R := ln x / ln 2.
Definition pow2 (y : R) : R := Rpower 2 y.

End JSMath.

(** The length of the analysis window the effect asks the analyser for
    (lines 328-336), from [audioContext.sampleRate]. *)
Definition desiredSamples (sampleRate : R) : R :=
  let targetWindowSec := 0.05 in
  JS.max 32 (JS.min 32768 (sampleRate * targetWindowSec)).

Definition fftSize (sampleRate : R) : R :=
  let nearestPow2 := JSMath.pow2 (JSMath.round (JSMath.log2 (desiredSamples sampleRate))) in
  JS.max 32 (JS.min 32768 nearestPow2).

(** [METER_WIDTH] and [METER_HEIGHT] of [Meter] (lines 137-157), from
    [options.width] and [options.height]. *)
Definition BASE_CONTAINER_WIDTH : R := 217.
Definition BASE_CONTAINER_HEIGHT : R := 190.

Definition aspect : R := BASE_CONTAINER_WIDTH / BASE_CONTAINER_HEIGHT.

Definition meterSize (width height : option R) : R * R :=
  match width, height with
  | None, None => (BASE_CONTAINER_WIDTH, BASE_CONTAINER_HEIGHT)
  | Some targetWidth, None => (targetWidth, JSMath.round (targetWidth / aspect))
  | None, Some targetHeight => (JSMath.round (targetHeight * aspect), targetHeight)
  | Some targetWidth, Some targetHeight => (targetWidth, targetHeight)
  end.

(** [meterWidth] and [meterHeight] of the [VUMeter] wrapper, and the
    width of its container (lines 696-712). *)
Definition wrapperSize (width height : option R) : R * R :=
  let meterWidth := JS.nullish width BASE_CONTAINER_WIDTH in
  let meterHeight := JS.nullish height (JSMath.round (meterWidth / aspect)) in
  (meterWidth, meterHeight).

Definition containerWidth (mono : bool) (width height : option R) : R :=
  let gap := 16 in
  let meterWidth := fst (wrapperSize width height) in
  if mono then meterWidth else meterWidth * 2 + gap.

(** The [Meter]s a [VUMeter] renders (lines 687-753): their channel and
    the reference level handed down, [mono] and [referenceLevel] with
    the defaults of the parameter list. *)
Definition VUMeter_meters (mono : option bool) (referenceLevel : option R)
           (options : VUMeterOptions) : list MeterProps :=
  let mono := JS.nullish mono false in
  let referenceLevel := JS.nullish referenceLevel (-18) in
  let meter ch :=
    {| prop_channel := Some ch; prop_referenceLevel := Some referenceLevel;
       prop_options := options |} in
  if mono then [meter ChMono] else [meter ChLeft; meter ChRight].



(** The scale marks of the dial (lines 552-565): [(vu, angle, main)]. *)
Definition scaleMarks : list (R * R * bool) :=
  [ (-25, -25, true); (-20, -23, false); (-10, -16, false); (-7, -12, false);
    (-5, -8, false); (-3, -3, false); (-2, 0, false); (-1, 3.5, false);
    (0, 8, true); (1, 13, false); (2, 18, false); (3, 25, true) ].


(** The inner function [adjust] of [adjustBrightness] (line 45). *)
Definition adjust (factor value : R) : R :=
  JS.min 255 (JS.max 0 (JSMath.round (value * factor))).

(** The value of the local [angle] of a frame: where the needle is
    heading. *)
Definition targetAngleOf (c : Closure) (s : MeterState) (dataArray : list R)
  : R :=
  toAngle (dbFS (channel c) (sourceChannelsRef s) dataArray - referenceLevel c).

(** A frame that leaves the needle below the clip threshold and the
    lamp dark, no clip ever recorded. *)
Definition dark (c : Closure) (s : MeterState) : Prop :=
  needleRotation s < clipThresholdDeg c /\ lastClipTimeMsRef s = None /\
  peakLampActive s = false /\ peakLampIntensity s = 0.

(** A meter holding its lamp: the needle was above the threshold in the
    previous frame, at 484 ms. *)
Definition holding : MeterState :=
  {| needleRotation := 24; peakLampActive := true; peakLampIntensity := 1;
     vuBallisticsRef := Some (VUBallistics.mk 0.3 0.3 0.98);
     lastTimeRef := 484; lastClipTimeMsRef := Some 484;
     sourceChannelsRef := 2 |}.

(* ================================================================== *)
(** ** Proof tools *)

(** Case analysis on the comparisons of a ladder of [if]s, closing each
    leaf by linear arithmetic. *)
Ltac ladder :=
  repeat match goal with
         | |- context [if ?d then _ else _] => destruct d; try lra
         end.

(* ================================================================== *)
(** ** The calibration ladder *)

Section Calibration.

Lemma toAngle_floor (v : R) : v <= -20 -> toAngle v = -25.
Proof. intros H; unfold toAngle; ladder. Qed.

Lemma toAngle_ceiling (v : R) : 3 <= v -> toAngle v = 25.
Proof. intros H; unfold toAngle; ladder. Qed.

Lemma toAngle_range (v : R) : -25 <= toAngle v <= 25.
Proof. unfold toAngle; ladder. Qed.

Lemma toAngle_mono (u v : R) : u <= v -> toAngle u <= toAngle v.
Proof. intros H; unfold toAngle; ladder. Qed.

(** Just above -20 VU the ladder is on its first segment, which starts
    at the -23 degree mark. *)
Lemma toAngle_first_segment (v : R) :
  -20 < v <= -10 -> toAngle v = -23 + ((v + 20) / 10) * 7.
Proof. intros H; unfold toAngle; ladder. Qed.

Lemma Qle_bool_R (a b : Q) : Qle_bool a b = true <-> Q2R a <= Q2R b.
Proof. rewrite Qle_bool_iff; split; [apply Qle_Rle | apply Rle_Qle]. Qed.

(** The rational ladder computes [toAngle]. *)
Lemma toAngleQ_exact (q : Q) : Q2R (toAngleQ q) = toAngle (Q2R q).
Proof.
  unfold toAngleQ.
  repeat match goal with
         | |- context [Qle_bool ?a ?b] =>
             let E := fresh "E" in
             destruct (Qle_bool a b) eqn:E;
             [ apply Qle_bool_R in E
             | assert (~ (Q2R a <= Q2R b))
                 by (rewrite <- Qle_bool_R, E; discriminate);
               clear E ]
         end.
  all: repeat (rewrite ?Q2R_plus, ?Q2R_minus, ?Q2R_mult, ?Q2R_div
                by (intros Hd; discriminate Hd)).
  all: unfold toAngle.
  all: generalize dependent (Q2R q); intros x; intros.
  all: unfold Q2R in *; cbn [Qnum Qden] in *.
  all: ladder.
Qed.

(** The ladder run at the marks of the dial: every mark but the first
    is hit; at -20 VU the needle is at -25 degrees, and just above it
    near the -23 degree mark. *)
Example toAngleQ_marks :
  map (fun v => Qred (toAngleQ v))
      [-20; -10; -7; -5; -3; -2; -1; 0; 1; 2; 3]%Q
  = [-25; -16; -12; -8; -3; 0; 7 # 2; 8; 13; 18; 25]%Q.
Proof. vm_compute; reflexivity. Qed.

Example toAngleQ_above_floor :
  Qred (toAngleQ (-19.999)) = (-229993 # 10000)%Q.
Proof. vm_compute; reflexivity. Qed.

End Calibration.

(* ================================================================== *)
(** ** The ballistics filter *)

Section Ballistics.

Import VUBallistics.

Lemma constructed_new : constructed new.
Proof. split; reflexivity. Qed.

Lemma process_constructed (b : t) (x dt : R) :
  constructed b -> constructed (fst (process b x dt)).
Proof. intros H; exact H. Qed.

Lemma process_returns_level (b : t) (x dt : R) :
  snd (process b x dt) = level (fst (process b x dt)).
Proof. reflexivity. Qed.

(** Both branches of [process] compute the same update once the two
    time constants are the initialised ones. *)
Lemma process_level (b : t) (x dt : R) :
  constructed b ->
  level (fst (process b x dt))
  = level b + (x - level b) * (1 - exp (- dt / 0.3)).
Proof.
  intros [Ha Hr]; unfold process; cbn [fst level].
  rewrite Ha, Hr.
  destruct (Rgt_dec x (level b)); reflexivity.
Qed.

(** With no elapsed time the coefficient vanishes whatever the time
    constants are. *)
Lemma process_dt0 (b : t) (x : R) : level (fst (process b x 0)) = level b.
Proof.
  unfold process; cbn [fst level].
  replace (- 0 / attackTime b) with 0 by (unfold Rdiv; ring).
  replace (- 0 / releaseTime b) with 0 by (unfold Rdiv; ring).
  rewrite exp_0.
  destruct (Rgt_dec x (level b)); ring.
Qed.

Lemma exp_nonpos_le_1 (x : R) : x <= 0 -> 0 < exp x <= 1.
Proof.
  intros H; split; [apply exp_pos|].
  destruct H as [H | ->].
  - left; rewrite <- exp_0; apply exp_increasing; exact H.
  - rewrite exp_0; lra.
Qed.

Lemma coeff_range (dt : R) : 0 <= dt -> 0 <= 1 - exp (- dt / 0.3) < 1.
Proof.
  intros H.
  assert (Hx : - dt / 0.3 <= 0) by lra.
  pose proof (exp_nonpos_le_1 _ Hx); lra.
Qed.

(** The smoothed level is a convex combination of the old level and
    the input. *)
Lemma process_unit (b : t) (x dt : R) :
  constructed b -> 0 <= level b <= 1 -> 0 <= x <= 1 -> 0 <= dt ->
  0 <= level (fst (process b x dt)) <= 1.
Proof.
  intros Hc Hl Hx Hdt.
  rewrite (process_level b x dt Hc).
  pose proof (coeff_range dt Hdt) as Hk.
  set (k := 1 - exp (- dt / 0.3)) in *.
  split; nra.
Qed.

End Ballistics.

(* ================================================================== *)
(** ** The level estimate *)

Section Level.

Lemma sumOfSquares_from (l : list R) (a : R) :
  fold_left (fun acc x => acc + x * x) l a
  = a + LevelSpec.sum (map (fun x => x ^ 2) l).
Proof.
  revert a; induction l as [| x l IH]; intros a; cbn [fold_left map LevelSpec.sum].
  - ring.
  - rewrite IH; ring.
Qed.

Lemma sumOfSquares_spec (l : list R) :
  sumOfSquares l = LevelSpec.sum (map (fun x => x ^ 2) l).
Proof. unfold sumOfSquares; rewrite sumOfSquares_from; ring. Qed.

Lemma sumOfSquares_silence (l : list R) :
  Forall (fun x => x = 0) l -> sumOfSquares l = 0.
Proof.
  intros H; rewrite sumOfSquares_spec.
  induction H as [| x l Hx _ IH]; cbn [map LevelSpec.sum].
  - reflexivity.
  - rewrite IH, Hx; ring.
Qed.

Lemma ln_10_pos : 0 < ln 10.
Proof. rewrite <- ln_1; apply ln_increasing; lra. Qed.

Lemma log10_floor : JS.log10 0.00001 = -5.
Proof.
  unfold JS.log10.
  replace 0.00001 with (/ (10 ^ 5)) by lra.
  rewrite ln_Rinv by lra.
  rewrite ln_pow by lra.
  pose proof ln_10_pos.
  cbn [INR]; field; lra.
Qed.

Lemma log10_1 : JS.log10 1 = 0.
Proof. unfold JS.log10; rewrite ln_1; unfold Rdiv; ring. Qed.

Lemma log10_le (x y : R) : 0 < x -> x <= y -> JS.log10 x <= JS.log10 y.
Proof.
  intros Hx [Hlt | ->]; [| lra].
  unfold JS.log10.
  pose proof ln_10_pos as H10.
  pose proof (ln_increasing x y Hx Hlt) as Hln.
  apply Rmult_le_compat_r; [| lra].
  left; apply Rinv_0_lt_compat; exact H10.
Qed.

(** The argument of the logarithm never falls below the floor, so the
    logarithm is taken of a positive number. *)
Lemma floored_rms (l : list R) :
  0.00001 <= JS.max (rms l) 0.00001.
Proof. unfold JS.max; apply Rmax_r. Qed.

Lemma dbFS_raw_lower (l : list R) : -100 <= dbFS_raw l.
Proof.
  unfold dbFS_raw.
  pose proof (log10_le 0.00001 _ ltac:(lra) (floored_rms l)) as H.
  rewrite log10_floor in H; lra.
Qed.

Lemma dbFS_raw_silence (l : list R) :
  Forall (fun x => x = 0) l -> dbFS_raw l = -100.
Proof.
  intros H; unfold dbFS_raw, rms.
  rewrite (sumOfSquares_silence l H).
  replace (0 / INR (length l)) with 0 by (unfold Rdiv; ring).
  rewrite sqrt_0.
  unfold JS.max; rewrite Rmax_right by lra.
  rewrite log10_floor; lra.
Qed.

Lemma dbFS_raw_spec (l : list R) : dbFS_raw l = LevelSpec.estimate l.
Proof.
  unfold dbFS_raw, LevelSpec.estimate, rms, LevelSpec.mean, JS.max.
  rewrite sumOfSquares_spec, length_map.
  replace 1e-5 with 0.00001 by lra.
  reflexivity.
Qed.

End Level.

(* ================================================================== *)
(** ** The peak lamp *)

Section PeakLamp.

Variable c : Closure.

Lemma lamp_idle (now : R) : lampIntensity c None now = 0.
Proof. reflexivity. Qed.

Lemma lamp_hold (clipTime now : R) :
  now - clipTime <= peakHoldMs c -> lampIntensity c (Some clipTime) now = 1.
Proof. intros H; unfold lampIntensity; ladder. Qed.

Lemma lamp_fade (clipTime now : R) :
  peakHoldMs c < now - clipTime ->
  lampIntensity c (Some clipTime) now
  = 1 - Rmin 1 ((now - clipTime - peakHoldMs c) / peakFadeMs c).
Proof. intros H; unfold lampIntensity, JS.min; ladder. Qed.

Hypothesis fade_pos : 0 < peakFadeMs c.

Lemma fade_fraction_pos (ms : R) :
  peakHoldMs c < ms -> 0 < (ms - peakHoldMs c) / peakFadeMs c.
Proof.
  intros H; apply Rmult_lt_0_compat; [lra |].
  apply Rinv_0_lt_compat; exact fade_pos.
Qed.

Lemma clamp_fade_fraction (ms : R) :
  peakHoldMs c < ms ->
  clamp ((ms - peakHoldMs c) / peakFadeMs c) 0 1
  = Rmin 1 ((ms - peakHoldMs c) / peakFadeMs c).
Proof.
  intros H; pose proof (fade_fraction_pos ms H) as Hp.
  unfold clamp; apply Rmax_right.
  apply Rmin_glb; lra.
Qed.

Lemma lamp_range (lastClip : option R) (now : R) :
  0 <= lampIntensity c lastClip now <= 1.
Proof.
  destruct lastClip as [clipTime |]; [| rewrite lamp_idle; lra].
  destruct (Rle_lt_dec (now - clipTime) (peakHoldMs c)) as [Hh | Hf].
  - rewrite lamp_hold by exact Hh; lra.
  - rewrite lamp_fade by exact Hf.
    pose proof (fade_fraction_pos _ Hf) as Hp.
    pose proof (Rmin_l 1 ((now - clipTime - peakHoldMs c) / peakFadeMs c)).
    assert (0 < Rmin 1 ((now - clipTime - peakHoldMs c) / peakFadeMs c))
      by (apply Rmin_glb_lt; lra).
    lra.
Qed.

End PeakLamp.

Section SnapOff.

Lemma snapOff_active (i : R) : fst (snapOff i) = true <-> i > 0.001.
Proof. unfold snapOff; destruct (Rle_dec i 0.001); cbn; split; intros; (lra || congruence). Qed.

Lemma snapOff_inactive (i : R) : fst (snapOff i) = false <-> i <= 0.001.
Proof. unfold snapOff; destruct (Rle_dec i 0.001); cbn; split; intros; (lra || congruence). Qed.

Lemma snapOff_dark (i : R) : fst (snapOff i) = false -> snd (snapOff i) = 0.
Proof. unfold snapOff; destruct (Rle_dec i 0.001); cbn; intros; congruence. Qed.

Lemma snapOff_lit (i : R) : fst (snapOff i) = true -> snd (snapOff i) = i.
Proof. unfold snapOff; destruct (Rle_dec i 0.001); cbn; intros; congruence. Qed.

Lemma snapOff_gap (i : R) : ~ (0 < snd (snapOff i) <= 0.001).
Proof. unfold snapOff; destruct (Rle_dec i 0.001); cbn; lra. Qed.

Lemma snapOff_range (i : R) : 0 <= i <= 1 -> 0 <= snd (snapOff i) <= 1.
Proof. unfold snapOff; destruct (Rle_dec i 0.001); cbn; lra. Qed.

End SnapOff.

(* ================================================================== *)
(** ** One frame *)

Section Frame.

Variables (c : Closure) (currentTime : R) (dataArray : list R).
Variables (s : MeterState) (b : VUBallistics.t).
Hypothesis ballistics : vuBallisticsRef s = Some b.

Let s' := animate c currentTime dataArray s.
Let p := VUBallistics.process b (normalizedLevelOf c s dataArray)
                              (deltaTimeOf s currentTime).

Lemma animate_ballistics : vuBallisticsRef s' = Some (fst p).
Proof.
  subst s' p; unfold animate; rewrite ballistics.
  unfold VUBallistics.process.
  destruct (snapOff _); reflexivity.
Qed.

Lemma animate_needle : needleRotation s' = snd p * 50 - 25.
Proof.
  subst s' p; unfold animate; rewrite ballistics.
  unfold VUBallistics.process.
  destruct (snapOff _); reflexivity.
Qed.

Lemma animate_lastTime : lastTimeRef s' = currentTime.
Proof.
  subst s'; unfold animate; rewrite ballistics.
  unfold VUBallistics.process.
  destruct (snapOff _); reflexivity.
Qed.

Lemma animate_sourceChannels : sourceChannelsRef s' = sourceChannelsRef s.
Proof.
  subst s'; unfold animate; rewrite ballistics.
  unfold VUBallistics.process.
  destruct (snapOff _); reflexivity.
Qed.

Lemma animate_lastClip :
  lastClipTimeMsRef s'
  = if Rge_dec (needleRotation s') (clipThresholdDeg c)
    then Some currentTime else lastClipTimeMsRef s.
Proof.
  rewrite animate_needle.
  subst s' p; unfold animate; rewrite ballistics.
  unfold VUBallistics.process.
  destruct (snapOff _); reflexivity.
Qed.

Lemma animate_lamp :
  (peakLampActive s', peakLampIntensity s')
  = snapOff (lampIntensity c (lastClipTimeMsRef s') currentTime).
Proof.
  rewrite animate_lastClip, animate_needle.
  subst s' p; unfold animate; rewrite ballistics.
  unfold VUBallistics.process.
  destruct (snapOff _); reflexivity.
Qed.

End Frame.

Section FrameBounds.

Variables (c : Closure) (s : MeterState).

Lemma normalizedLevelOf_unit (dataArray : list R) :
  0 <= normalizedLevelOf c s dataArray <= 1.
Proof.
  unfold normalizedLevelOf.
  pose proof (toAngle_range
    (dbFS (channel c) (sourceChannelsRef s) dataArray - referenceLevel c)).
  lra.
Qed.

Lemma deltaTimeOf_first (currentTime : R) :
  lastTimeRef s = 0 -> deltaTimeOf s currentTime = 0.
Proof.
  intros H; unfold deltaTimeOf, JS.falsy; rewrite H.
  destruct (Req_dec_T 0 0); lra.
Qed.

Lemma deltaTimeOf_later (currentTime : R) :
  lastTimeRef s <> 0 ->
  deltaTimeOf s currentTime = (currentTime - lastTimeRef s) / 1000.
Proof.
  intros H; unfold deltaTimeOf, JS.falsy.
  destruct (Req_dec_T (lastTimeRef s) 0); [contradiction | reflexivity].
Qed.

Lemma deltaTimeOf_nonneg (currentTime : R) :
  lastTimeRef s <= currentTime -> 0 <= deltaTimeOf s currentTime.
Proof.
  intros H; unfold deltaTimeOf, JS.falsy.
  destruct (Req_dec_T (lastTimeRef s) 0); lra.
Qed.

End FrameBounds.

(** A full-scale window drives the ladder to its ceiling whatever the
    channel correction and for the default reference level. *)
Lemma loud_window_rms : rms (repeat 1 32) = 1.
Proof.
  unfold rms; rewrite repeat_length.
  replace (sumOfSquares (repeat 1 32)) with 32
    by (unfold sumOfSquares; cbn [repeat fold_left]; lra).
  replace (INR 32) with 32 by (cbn [INR]; lra).
  replace (32 / 32) with 1 by lra.
  apply sqrt_1.
Qed.

Lemma loud_window_dbFS_raw : dbFS_raw (repeat 1 32) = 0.
Proof.
  unfold dbFS_raw; rewrite loud_window_rms.
  unfold JS.max; rewrite Rmax_left by lra.
  rewrite log10_1; lra.
Qed.

Lemma loud_window_level (s : MeterState) :
  normalizedLevelOf defaultClosure s (repeat 1 32) = 1.
Proof.
  unfold normalizedLevelOf, dbFS.
  rewrite loud_window_dbFS_raw; cbn [defaultClosure closure channel referenceLevel
    JS.nullish prop_channel prop_referenceLevel].
  destruct (Channel_eqb ChMono ChMono && (sourceChannelsRef s =? 2)%Z);
    rewrite toAngle_ceiling by lra; lra.
Qed.

Section Session.

Variable c : Closure.
Hypothesis fade_pos : 0 < peakFadeMs c.

Lemma animate_in_range (currentTime : R) (dataArray : list R)
      (s : MeterState) (b : VUBallistics.t) :
  vuBallisticsRef s = Some b ->
  VUBallistics.constructed b ->
  0 <= VUBallistics.level b <= 1 ->
  lastTimeRef s <= currentTime ->
  let s' := animate c currentTime dataArray s in
  in_range s' /\
  exists b', vuBallisticsRef s' = Some b' /\ VUBallistics.constructed b' /\
             0 <= VUBallistics.level b' <= 1.
Proof.
  intros Hb Hc Hl Ht s'.
  pose proof (process_unit b _ _ Hc Hl
                (normalizedLevelOf_unit c s dataArray)
                (deltaTimeOf_nonneg s currentTime Ht)) as Hu.
  split; [split |].
  - subst s'; rewrite (animate_needle c _ _ s b Hb).
    rewrite process_returns_level; lra.
  - pose proof (animate_lamp c currentTime dataArray s b Hb) as Hp.
    fold s' in Hp.
    replace (peakLampIntensity s')
      with (snd (snapOff (lampIntensity c (lastClipTimeMsRef s') currentTime)))
      by (rewrite <- Hp; reflexivity).
    apply snapOff_range, lamp_range, fade_pos.
  - eexists; split; [apply (animate_ballistics c _ _ s b Hb) |].
    split; [apply process_constructed; exact Hc | exact Hu].
Qed.

Lemma trace_in_range (frames : list Frame) :
  forall (s : MeterState) (b : VUBallistics.t),
  vuBallisticsRef s = Some b ->
  VUBallistics.constructed b ->
  0 <= VUBallistics.level b <= 1 ->
  nondecreasing (lastTimeRef s) (map fst frames) ->
  Forall in_range (trace c frames s).
Proof.
  induction frames as [| [t d] rest IH]; intros s b Hb Hc Hl Hn;
    cbn [trace fst snd]; [constructor |].
  cbn [map fst nondecreasing] in Hn; destruct Hn as [Ht Hn].
  destruct (animate_in_range t d s b Hb Hc Hl Ht) as [Hr [b' [Hb' [Hc' Hl']]]].
  constructor; [exact Hr |].
  apply (IH _ b' Hb' Hc' Hl').
  rewrite (animate_lastTime c t d s b Hb); exact Hn.
Qed.

End Session.

Lemma exp_minus_1_half : exp (- 1) < / 2.
Proof.
  replace (- 1) with (Ropp 1) by lra.
  rewrite exp_Ropp.
  pose proof (exp_ineq1 1 ltac:(lra)) as H.
  apply Rinv_lt_contravar; lra.
Qed.

Lemma fading_needle_after :
  needleRotation (animate defaultClosure 3000 (repeat 1 32) fading) >= 23.
Proof.
  rewrite (animate_needle defaultClosure _ _ fading _ eq_refl).
  rewrite process_returns_level, process_level by (split; reflexivity).
  rewrite loud_window_level.
  rewrite deltaTimeOf_later by (cbn [fading lastTimeRef]; lra).
  cbn [fading lastTimeRef VUBallistics.level].
  replace (- ((3000 - 2700) / 1000) / 0.3) with (- 1) by lra.
  pose proof exp_minus_1_half; lra.
Qed.

(* ================================================================== *)
(** ** The properties of the specification *)

(** C1.  The calibration points of [toAngle].  The ladder gives
    [toAngle 0 = 8], [toAngle 3 = 25], [toAngle (-25) = -25] and
    [toAngle 10 = 25]; it clamps to -25 below -20 VU and to +25 at or
    above +3 VU.  At exactly -20 VU the outer guard [vuValue <= -20]
    wins and the needle goes to -25 degrees, not to the -23 degree mark
    where the first segment starts and where the dial draws "20". *)
Theorem toAngle_calibration_points :
  toAngle (-20) = -25 /\
  toAngle 0 = 8 /\ toAngle 3 = 25 /\ toAngle (-25) = -25 /\ toAngle 10 = 25 /\
  (forall v, v < -20 -> toAngle v = -25) /\
  (forall v, 3 <= v -> toAngle v = 25) /\
  (forall v, -20 < v <= -10 -> toAngle v = -23 + ((v + 20) / 10) * 7).
Proof.
  repeat split; try (unfold toAngle; ladder; fail).
  - intros v H; apply toAngle_floor; lra.
  - exact toAngle_ceiling.
  - exact toAngle_first_segment.
Qed.

(** C2.  [toAngle] is non-decreasing over [-25, +3] VU (indeed
    everywhere) and constant on either side of that interval. *)
Theorem toAngle_monotone_clamped (u v : R) :
  u <= v ->
  (-25 <= u -> v <= 3 -> toAngle u <= toAngle v) /\
  (v < -25 -> toAngle u = toAngle v /\ toAngle v = -25) /\
  (3 < u -> toAngle u = toAngle v /\ toAngle u = 25).
Proof.
  intros Huv; split; [| split].
  - intros _ _; apply toAngle_mono; exact Huv.
  - intros H; rewrite !toAngle_floor by lra; split; reflexivity.
  - intros H; rewrite !toAngle_ceiling by lra; split; reflexivity.
Qed.

Lemma toAngle_monotone_clamped_witness :
  -10 <= 0 /\ toAngle (-10) <= toAngle 0.
Proof.
  split; [lra |].
  apply (toAngle_monotone_clamped (-10) 0); lra.
Defined.

(** C3.  For a non-empty window the level computed by the accumulation
    loop is [20 * log10 (max (sqrt (mean (sample_i ^ 2))) 1e-5)]; the
    logarithm is taken of a number that is at least 1e-5, so the level
    is a finite number no lower than -100 dBFS; and a window of zeros
    gives exactly [20 * log10 1e-5], which is -100. *)
Theorem level_estimate (window : list R) :
  window <> [] ->
  dbFS_raw window = LevelSpec.estimate window /\
  0.00001 <= JS.max (rms window) 0.00001 /\
  -100 <= dbFS_raw window /\
  (Forall (fun x => x = 0) window ->
   dbFS_raw window = 20 * JS.log10 1e-5 /\ dbFS_raw window = -100).
Proof.
  intros _; split; [apply dbFS_raw_spec |].
  split; [apply floored_rms |].
  split; [apply dbFS_raw_lower |].
  intros Hz; rewrite (dbFS_raw_silence window Hz).
  replace 1e-5 with 0.00001 by lra.
  rewrite log10_floor; split; lra.
Qed.

Lemma level_estimate_witness :
  repeat 0 32 <> [] /\ dbFS_raw (repeat 0 32) = -100.
Proof.
  assert (Hne : repeat 0 32 <> []) by (cbn [repeat]; discriminate).
  split; [exact Hne |].
  apply (level_estimate (repeat 0 32) Hne).
  apply Forall_forall; intros x Hx; apply repeat_spec in Hx; exact Hx.
Defined.

(** C4.  After the effect has connected the source, the level gets the
    fixed +3.8 dB exactly when the channel is [mono] and the source node
    reports 2 channels; in every other configuration, whatever
    [sourceChannelsRef] held before, nothing is added.  Frames leave
    [sourceChannelsRef] alone. *)
Theorem mono_correction (c : Closure) (channelCount : Z) (s : MeterState)
        (dataArray : list R) :
  let s1 := connect c channelCount s in
  (channel c = ChMono /\ channelCount = 2%Z ->
   dbFS (channel c) (sourceChannelsRef s1) dataArray
   = dbFS_raw dataArray + 3.8) /\
  (~ (channel c = ChMono /\ channelCount = 2%Z) ->
   dbFS (channel c) (sourceChannelsRef s1) dataArray = dbFS_raw dataArray) /\
  (forall currentTime d,
     sourceChannelsRef (animate c currentTime d s1) = sourceChannelsRef s1).
Proof.
  cbn zeta; split; [| split].
  - intros [Hc Hn]; unfold dbFS, connect; cbn [sourceChannelsRef].
    rewrite Hc, Hn; reflexivity.
  - intros Hno; unfold dbFS, connect; cbn [sourceChannelsRef].
    destruct (channel c); cbn [Channel_eqb andb]; try reflexivity.
    destruct (Z.eqb_spec channelCount 0) as [-> | Hz]; [reflexivity |].
    destruct (Z.eqb_spec channelCount 2) as [H2 | H2]; [| reflexivity].
    exfalso; apply Hno; split; [reflexivity | exact H2].
  - intros currentTime d.
    apply (animate_sourceChannels c currentTime d _ VUBallistics.new).
    reflexivity.
Qed.

(** C5.  [process] moves the level by
    [(inputLevel - level) * (1 - exp (- deltaTime / 0.3))], whether the
    input is above the level (attack) or not (release): the two
    coefficients are equal.  It returns the new level, and with
    [deltaTime = 0] the level and the returned value are the old level. *)
Theorem process_update (b : VUBallistics.t) (inputLevel deltaTime : R) :
  VUBallistics.constructed b ->
  let r := VUBallistics.process b inputLevel deltaTime in
  VUBallistics.level (fst r)
  = VUBallistics.level b
    + (inputLevel - VUBallistics.level b) * (1 - exp (- deltaTime / 0.3)) /\
  snd r = VUBallistics.level (fst r) /\
  1 - exp (- deltaTime / VUBallistics.attackTime b)
  = 1 - exp (- deltaTime / VUBallistics.releaseTime b) /\
  (deltaTime = 0 ->
   VUBallistics.level (fst r) = VUBallistics.level b /\
   snd r = VUBallistics.level b).
Proof.
  intros Hc r; subst r.
  split; [apply process_level; exact Hc |].
  split; [apply process_returns_level |].
  split; [destruct Hc as [-> ->]; reflexivity |].
  intros ->; rewrite process_returns_level, process_dt0; split; reflexivity.
Qed.

Lemma process_update_witness :
  VUBallistics.constructed VUBallistics.new /\
  snd (VUBallistics.process VUBallistics.new 1 0) = 0.
Proof.
  split; [exact constructed_new |].
  apply (process_update VUBallistics.new 1 0 constructed_new); reflexivity.
Defined.

(** C6.  The lamp intensity of a frame, for a positive fade time: 0 when
    no clip was ever recorded; 1 while [now - lastClipTime <= peakHoldMs];
    afterwards [1 - clamp ((msSinceLastClip - peakHoldMs) / peakFadeMs) 0 1].
    The defaults are 1000 ms and 5000 ms, so after a single clip at
    time 0 the intensity is 1 on [0, 1000], strictly decreasing on
    (1000, 6000], and the lamp is reported inactive exactly when the
    intensity is at most 0.001.  Every frame emits the snapped-off
    intensity computed this way. *)
Theorem peak_intensity (c : Closure) :
  0 < peakFadeMs c ->
  (forall now, lampIntensity c None now = 0) /\
  (forall clipTime now,
     now - clipTime <= peakHoldMs c ->
     lampIntensity c (Some clipTime) now = 1) /\
  (forall clipTime now,
     peakHoldMs c < now - clipTime ->
     lampIntensity c (Some clipTime) now
     = 1 - clamp ((now - clipTime - peakHoldMs c) / peakFadeMs c) 0 1) /\
  (peakHoldMs defaultClosure = 1000 /\ peakFadeMs defaultClosure = 5000) /\
  (forall t, 0 <= t <= 1000 -> lampIntensity defaultClosure (Some 0) t = 1) /\
  (forall t1 t2,
     1000 < t1 -> t1 < t2 -> t2 <= 6000 ->
     lampIntensity defaultClosure (Some 0) t2
     < lampIntensity defaultClosure (Some 0) t1) /\
  (forall i, fst (snapOff i) = false <-> i <= 0.001) /\
  (forall currentTime dataArray s b,
     vuBallisticsRef s = Some b ->
     let s' := animate c currentTime dataArray s in
     (peakLampActive s', peakLampIntensity s')
     = snapOff (lampIntensity c (lastClipTimeMsRef s') currentTime)).
Proof.
  intros Hfade.
  split; [apply lamp_idle |].
  split; [apply lamp_hold |].
  split.
  { intros clipTime now H.
    rewrite (clamp_fade_fraction c Hfade (now - clipTime) H).
    apply lamp_fade; exact H. }
  split; [split; reflexivity |].
  split.
  { intros t Ht; apply lamp_hold.
    cbn [defaultClosure closure peakHoldMs JS.nullish prop_options noOptions
         opt_peakHoldMs]; lra. }
  split.
  { intros t1 t2 H1 H12 H2.
    rewrite !lamp_fade
      by (cbn [defaultClosure closure peakHoldMs JS.nullish prop_options
               noOptions opt_peakHoldMs]; lra).
    cbn [defaultClosure closure peakHoldMs peakFadeMs JS.nullish prop_options
         noOptions opt_peakHoldMs opt_peakFadeMs].
    rewrite !Rmin_right by lra; lra. }
  split; [apply snapOff_inactive |].
  intros currentTime dataArray s b Hb; apply (animate_lamp c _ _ s b Hb).
Qed.

Lemma peak_intensity_witness :
  0 < peakFadeMs defaultClosure /\
  lampIntensity defaultClosure (Some 0) 3500 = 1 - clamp ((3500 - 0 - 1000) / 5000) 0 1.
Proof.
  assert (Hf : 0 < peakFadeMs defaultClosure) by (cbn; lra).
  split; [exact Hf |].
  apply (peak_intensity defaultClosure Hf); cbn; lra.
Defined.

(** C7, as the code has it.  On the first frame after mounting
    ([lastTimeRef] still 0) the elapsed time is 0, and the ballistics
    level is left where it was: for a fresh [VUBallistics] that is 0, so
    the needle stays at -25 degrees whatever the input of that frame. *)
Theorem first_frame (c : Closure) (currentTime : R) (dataArray : list R)
        (s : MeterState) (b : VUBallistics.t) :
  vuBallisticsRef s = Some b ->
  lastTimeRef s = 0 ->
  let s' := animate c currentTime dataArray s in
  deltaTimeOf s currentTime = 0 /\
  option_map VUBallistics.level (vuBallisticsRef s')
  = Some (VUBallistics.level b) /\
  needleRotation s' = VUBallistics.level b * 50 - 25 /\
  (b = VUBallistics.new -> needleRotation s' = -25).
Proof.
  intros Hb H0 s'; subst s'.
  pose proof (deltaTimeOf_first s currentTime H0) as Hd.
  split; [exact Hd |].
  rewrite (animate_ballistics c _ _ s b Hb), (animate_needle c _ _ s b Hb).
  cbn [option_map].
  rewrite process_returns_level, Hd, process_dt0.
  split; [reflexivity |]; split; [reflexivity |].
  intros ->; cbn [VUBallistics.new VUBallistics.level]; lra.
Qed.

Lemma first_frame_witness :
  let s0 := connect defaultClosure 2 mounted in
  vuBallisticsRef s0 = Some VUBallistics.new /\
  lastTimeRef s0 = 0 /\
  needleRotation (animate defaultClosure 16 (repeat 1 32) s0) = -25.
Proof.
  cbn zeta; split; [reflexivity |]; split; [reflexivity |].
  apply (first_frame defaultClosure 16 (repeat 1 32)
           (connect defaultClosure 2 mounted) VUBallistics.new
           eq_refl eq_refl); reflexivity.
Defined.

(** C7, as the specification words it, fails: the first frame of a
    freshly connected meter that hears a full-scale window has input
    level 1, and the filter state after it is still 0. *)
Lemma filter_not_seeded_at_start :
  let s0 := connect defaultClosure 2 mounted in
  let s1 := animate defaultClosure 16 (repeat 1 32) s0 in
  normalizedLevelOf defaultClosure s0 (repeat 1 32) = 1 /\
  option_map VUBallistics.level (vuBallisticsRef s1) = Some 0 /\
  option_map VUBallistics.level (vuBallisticsRef s1)
  <> Some (normalizedLevelOf defaultClosure s0 (repeat 1 32)).
Proof.
  cbn zeta.
  set (s0 := connect defaultClosure 2 mounted).
  assert (Hb : vuBallisticsRef s0 = Some VUBallistics.new) by reflexivity.
  assert (Hl : option_map VUBallistics.level
                 (vuBallisticsRef (animate defaultClosure 16 (repeat 1 32) s0))
               = Some 0).
  { rewrite (animate_ballistics defaultClosure _ _ s0 _ Hb).
    rewrite (deltaTimeOf_first s0 16 eq_refl).
    cbn [option_map]; rewrite process_dt0; reflexivity. }
  split; [apply loud_window_level |].
  split; [exact Hl |].
  rewrite Hl, loud_window_level.
  intros H; injection H; lra.
Qed.

(** C8.  In a frame whose needle angle after the ballistics is at or
    above the clip threshold (23 degrees by default), the last clip time
    becomes the time of that frame, whatever it was before; the hold
    time being non-negative, the intensity of that frame is 1 and the
    lamp is lit, also when a fade was in progress.  In a frame below the
    threshold the last clip time is kept. *)
Theorem clip_retrigger (c : Closure) (currentTime : R) (dataArray : list R)
        (s : MeterState) (b : VUBallistics.t) :
  vuBallisticsRef s = Some b ->
  0 <= peakHoldMs c ->
  let s' := animate c currentTime dataArray s in
  (needleRotation s' >= clipThresholdDeg c ->
   lastClipTimeMsRef s' = Some currentTime /\
   lampIntensity c (lastClipTimeMsRef s') currentTime = 1 /\
   peakLampActive s' = true /\ peakLampIntensity s' = 1) /\
  (needleRotation s' < clipThresholdDeg c ->
   lastClipTimeMsRef s' = lastClipTimeMsRef s) /\
  clipThresholdDeg defaultClosure = 23.
Proof.
  intros Hb Hh s'.
  pose proof (animate_lastClip c currentTime dataArray s b Hb) as Hc.
  pose proof (animate_lamp c currentTime dataArray s b Hb) as Hp.
  fold s' in Hc, Hp.
  split; [| split; [| reflexivity]].
  - intros Hge.
    destruct (Rge_dec (needleRotation s') (clipThresholdDeg c));
      [| contradiction].
    assert (Hi : lampIntensity c (lastClipTimeMsRef s') currentTime = 1)
      by (rewrite Hc; apply lamp_hold; lra).
    rewrite Hi in Hp.
    unfold snapOff in Hp; destruct (Rle_dec 1 0.001); [lra |].
    injection Hp as Ha Hint.
    repeat split; assumption.
  - intros Hlt.
    destruct (Rge_dec (needleRotation s') (clipThresholdDeg c)); [lra |].
    exact Hc.
Qed.

Lemma clip_retrigger_witness :
  let s' := animate defaultClosure 3000 (repeat 1 32) fading in
  vuBallisticsRef fading = Some (VUBallistics.mk 0.3 0.3 0.95) /\
  0 <= peakHoldMs defaultClosure /\
  needleRotation s' >= clipThresholdDeg defaultClosure /\
  lastClipTimeMsRef s' = Some 3000 /\
  peakLampIntensity s' = 1.
Proof.
  cbn zeta.
  assert (Hh : 0 <= peakHoldMs defaultClosure) by (cbn; lra).
  split; [reflexivity |]; split; [exact Hh |].
  split; [exact fading_needle_after |].
  destruct (clip_retrigger defaultClosure 3000 (repeat 1 32) fading _
              eq_refl Hh) as [Hclip _].
  destruct (Hclip fading_needle_after) as [Hl [_ [_ Hi]]].
  split; [exact Hl | exact Hi].
Defined.

(** C9.  In a session whose timestamps never run backwards and whose
    fade time is positive, every frame emits a needle angle within
    [-25, 25] and a lamp intensity within [0, 1].  The reason for the
    angle: a [process] call on a level in [0, 1] with an input in [0, 1]
    and a non-negative elapsed time returns a level in [0, 1], which
    [smoothedLevel * 50 - 25] maps into the dial range. *)
Theorem outputs_in_range (c : Closure) (channelCount : Z) (s0 : MeterState)
        (frames : list Frame) :
  0 < peakFadeMs c ->
  nondecreasing (lastTimeRef s0) (map fst frames) ->
  Forall in_range (trace c frames (connect c channelCount s0)) /\
  (forall b inputLevel deltaTime,
     VUBallistics.constructed b ->
     0 <= VUBallistics.level b <= 1 ->
     0 <= inputLevel <= 1 ->
     0 <= deltaTime ->
     let r := VUBallistics.process b inputLevel deltaTime in
     0 <= snd r <= 1 /\ VUBallistics.level (fst r) = snd r /\
     -25 <= snd r * 50 - 25 <= 25).
Proof.
  intros Hf Hn; split.
  - apply (trace_in_range c Hf frames _ VUBallistics.new).
    + reflexivity.
    + exact constructed_new.
    + cbn [VUBallistics.new VUBallistics.level]; lra.
    + exact Hn.
  - intros b x dt Hc Hl Hx Hdt r; subst r.
    pose proof (process_unit b x dt Hc Hl Hx Hdt) as Hu.
    rewrite process_returns_level.
    split; [exact Hu |]; split; [reflexivity | lra].
Qed.

Lemma outputs_in_range_witness :
  let frames := [(16, repeat 0 32); (33, repeat 1 32)] in
  0 < peakFadeMs defaultClosure /\
  nondecreasing (lastTimeRef mounted) (map fst frames) /\
  Forall in_range (trace defaultClosure frames (connect defaultClosure 2 mounted)).
Proof.
  cbn zeta.
  assert (Hf : 0 < peakFadeMs defaultClosure) by (cbn; lra).
  assert (Hn : nondecreasing (lastTimeRef mounted)
                 (map fst [(16, repeat 0 32); (33, repeat 1 32)]))
    by (cbn [map fst nondecreasing mounted lastTimeRef]; lra).
  split; [exact Hf |]; split; [exact Hn |].
  apply (outputs_in_range defaultClosure 2 mounted _ Hf Hn).
Defined.

(** C10.  The pair a frame emits is consistent: the lamp is reported
    active exactly when the intensity computed in that frame exceeds
    0.001, an active lamp shows that intensity, an inactive lamp shows
    exactly 0, and the shown intensity is never in (0, 0.001]. *)
Theorem lamp_pair_consistent (c : Closure) (currentTime : R)
        (dataArray : list R) (s : MeterState) (b : VUBallistics.t) :
  vuBallisticsRef s = Some b ->
  let s' := animate c currentTime dataArray s in
  let intensity := lampIntensity c (lastClipTimeMsRef s') currentTime in
  (peakLampActive s' = true <-> intensity > 0.001) /\
  (peakLampActive s' = true -> peakLampIntensity s' = intensity) /\
  (peakLampActive s' = false -> peakLampIntensity s' = 0) /\
  ~ (0 < peakLampIntensity s' <= 0.001).
Proof.
  intros Hb s' intensity.
  pose proof (animate_lamp c currentTime dataArray s b Hb) as Hp.
  fold s' in Hp; fold intensity in Hp.
  assert (Ha : peakLampActive s' = fst (snapOff intensity))
    by (rewrite <- Hp; reflexivity).
  assert (Hi : peakLampIntensity s' = snd (snapOff intensity))
    by (rewrite <- Hp; reflexivity).
  rewrite Ha, Hi.
  split; [apply snapOff_active |].
  split; [apply snapOff_lit |].
  split; [apply snapOff_dark | apply snapOff_gap].
Qed.

Lemma lamp_pair_consistent_witness :
  let s0 := connect defaultClosure 2 mounted in
  let s' := animate defaultClosure 16 (repeat 0 32) s0 in
  vuBallisticsRef s0 = Some VUBallistics.new /\
  ~ (0 < peakLampIntensity s' <= 0.001).
Proof.
  cbn zeta; split; [reflexivity |].
  apply (lamp_pair_consistent defaultClosure 16 (repeat 0 32)
           (connect defaultClosure 2 mounted) VUBallistics.new eq_refl).
Defined.

(* ================================================================== *)
(** ** Further properties of the ballistics filter *)

Section BallisticsResponse.

Import VUBallistics.

Variable b : t.
Hypothesis built : constructed b.



End BallisticsResponse.



(** X2.  With a non-negative elapsed time the new level lies between the
    old level and the input: the needle never overshoots its target and
    never moves away from it. *)
Theorem process_no_overshoot (b : VUBallistics.t) (inputLevel deltaTime : R) :
  VUBallistics.constructed b ->
  0 <= deltaTime ->
  let level' := VUBallistics.level
                  (fst (VUBallistics.process b inputLevel deltaTime)) in
  Rmin (VUBallistics.level b) inputLevel <= level'
  <= Rmax (VUBallistics.level b) inputLevel.
Proof.
  intros Hc Hdt level'; subst level'.
  rewrite (process_level b inputLevel deltaTime Hc).
  pose proof (coeff_range deltaTime Hdt) as Hk.
  set (k := 1 - exp (- deltaTime / 0.3)) in *.
  unfold Rmin, Rmax; destruct (Rle_dec (VUBallistics.level b) inputLevel);
    split; nra.
Qed.

Lemma process_no_overshoot_witness :
  VUBallistics.constructed VUBallistics.new /\ 0 <= 0.016 /\
  Rmin 0 1
  <= VUBallistics.level (fst (VUBallistics.process VUBallistics.new 1 0.016))
  <= Rmax 0 1.
Proof.
  assert (Hd : 0 <= 0.016) by lra.
  split; [exact constructed_new |]; split; [exact Hd |].
  apply (process_no_overshoot VUBallistics.new 1 0.016 constructed_new Hd).
Defined.



(** X4.  With a non-negative elapsed time [process] is monotone in its
    input: from the same level, a higher input never gives a lower
    level. *)
Theorem process_monotone (b : VUBallistics.t) (x y deltaTime : R) :
  VUBallistics.constructed b ->
  0 <= deltaTime ->
  x <= y ->
  VUBallistics.level (fst (VUBallistics.process b x deltaTime))
  <= VUBallistics.level (fst (VUBallistics.process b y deltaTime)).
Proof.
  intros Hc Hdt Hxy.
  rewrite !process_level by exact Hc.
  pose proof (coeff_range deltaTime Hdt) as Hk.
  set (k := 1 - exp (- deltaTime / 0.3)) in *.
  nra.
Qed.

Lemma process_monotone_witness :
  VUBallistics.constructed VUBallistics.new /\ 0 <= 0.016 /\ 0.2 <= 0.7 /\
  VUBallistics.level (fst (VUBallistics.process VUBallistics.new 0.2 0.016))
  <= VUBallistics.level (fst (VUBallistics.process VUBallistics.new 0.7 0.016)).
Proof.
  assert (Hd : 0 <= 0.016) by lra.
  assert (Hxy : 0.2 <= 0.7) by lra.
  split; [exact constructed_new |]; split; [exact Hd |]; split; [exact Hxy |].
  apply (process_monotone VUBallistics.new 0.2 0.7 0.016 constructed_new Hd Hxy).
Defined.

(* ================================================================== *)
(** ** Further properties of the level estimate *)

Section LevelFacts.

Lemma window_length_pos (w : list R) : w <> [] -> 0 < INR (length w).
Proof.
  intros H; destruct w as [| x w]; [contradiction |].
  apply lt_0_INR; cbn [length]; apply Nat.lt_0_succ.
Qed.

Lemma sumOfSquares_nonneg (w : list R) : 0 <= sumOfSquares w.
Proof.
  rewrite sumOfSquares_spec.
  induction w as [| x w IH]; cbn [map LevelSpec.sum]; [lra |].
  pose proof (pow2_ge_0 x); lra.
Qed.



Lemma sumOfSquares_unit (w : list R) :
  Forall (fun x => -1 <= x <= 1) w -> sumOfSquares w <= INR (length w).
Proof.
  intros H; rewrite sumOfSquares_spec.
  induction H as [| x w Hx _ IH]; [cbn; lra |].
  cbn [map LevelSpec.sum].
  change (length (x :: w)) with (S (length w)); rewrite S_INR.
  assert (x ^ 2 <= 1) by nra.
  lra.
Qed.

Lemma rms_nonneg (w : list R) : 0 <= rms w.
Proof. apply sqrt_pos. Qed.


Lemma dbFS_raw_mono (w1 w2 : list R) :
  rms w1 <= rms w2 -> dbFS_raw w1 <= dbFS_raw w2.
Proof.
  intros H; unfold dbFS_raw.
  assert (Hle : JS.max (rms w1) 0.00001 <= JS.max (rms w2) 0.00001)
    by (unfold JS.max; apply Rle_max_compat_r; exact H).
  pose proof (floored_rms w1) as Hf.
  assert (Hp : 0 < JS.max (rms w1) 0.00001) by lra.
  pose proof (log10_le _ _ Hp Hle); lra.
Qed.

End LevelFacts.

(** X5.  For a non-empty window of samples within [-1, 1] the RMS is
    within [0, 1] and the level within [-100, 0] dBFS: full scale is the
    ceiling, the floor of 1e-5 the bottom. *)
Theorem level_within_full_scale (window : list R) :
  window <> [] ->
  Forall (fun x => -1 <= x <= 1) window ->
  0 <= rms window <= 1 /\ -100 <= dbFS_raw window <= 0.
Proof.
  intros Hne Hu.
  pose proof (window_length_pos window Hne) as Hn.
  assert (Hr : 0 <= rms window <= 1).
  { split; [apply rms_nonneg |].
    unfold rms; rewrite <- sqrt_1.
    apply sqrt_le_1_alt.
    pose proof (sumOfSquares_unit window Hu) as Hs.
    apply Rmult_le_reg_r with (INR (length window)); [exact Hn |].
    unfold Rdiv; rewrite Rmult_assoc, Rinv_l by lra; lra. }
  split; [exact Hr |]; split; [apply dbFS_raw_lower |].
  unfold dbFS_raw.
  assert (Hm : JS.max (rms window) 0.00001 <= 1)
    by (unfold JS.max; apply Rmax_lub; lra).
  pose proof (floored_rms window) as Hf.
  assert (Hp : 0 < JS.max (rms window) 0.00001) by lra.
  pose proof (log10_le _ _ Hp Hm) as Hl.
  rewrite log10_1 in Hl; lra.
Qed.

Lemma level_within_full_scale_witness :
  repeat 1 32 <> [] /\ dbFS_raw (repeat 1 32) <= 0.
Proof.
  assert (Hne : repeat 1 32 <> []) by (cbn [repeat]; discriminate).
  split; [exact Hne |].
  apply (level_within_full_scale (repeat 1 32) Hne).
  apply Forall_forall; intros x Hx; apply repeat_spec in Hx; subst x; lra.
Defined.





(* ================================================================== *)
(** ** Further properties of the calibration ladder *)



(** X9.  The needle lands on the marks the dial draws: for every scale
    mark [(vu, angle)] other than the one for -20 VU, a level of [vu]
    sends the needle to [angle]. *)
Theorem needle_lands_on_marks (vu angle : R) (main : bool) :
  In (vu, angle, main) scaleMarks -> vu <> -20 -> toAngle vu = angle.
Proof.
  intros Hin Hne; unfold scaleMarks in Hin; cbn [In] in Hin.
  repeat (destruct Hin as [Heq | Hin];
          [injection Heq as <- <- _;
           try (exfalso; apply Hne; reflexivity);
           unfold toAngle; ladder |]).
  contradiction.
Qed.

Lemma needle_lands_on_marks_witness :
  In (0, 8, true) scaleMarks /\ 0 <> -20 /\ toAngle 0 = 8.
Proof.
  assert (Hin : In (0, 8, true) scaleMarks)
    by (unfold scaleMarks; cbn [In]; do 8 right; left; reflexivity).
  assert (Hne : 0 <> -20) by lra.
  split; [exact Hin |]; split; [exact Hne |].
  apply (needle_lands_on_marks 0 8 true Hin Hne).
Defined.

(* ================================================================== *)
(** ** Further properties of frames and sessions *)

Section FrameFacts.

Variable c : Closure.

Lemma normalizedLevelOf_target (s : MeterState) (w : list R) :
  normalizedLevelOf c s w * 50 - 25 = targetAngleOf c s w.
Proof. unfold normalizedLevelOf, targetAngleOf; lra. Qed.

Lemma targetAngleOf_mono (s : MeterState) (w1 w2 : list R) :
  rms w1 <= rms w2 -> targetAngleOf c s w1 <= targetAngleOf c s w2.
Proof.
  intros H; unfold targetAngleOf; apply toAngle_mono.
  pose proof (dbFS_raw_mono w1 w2 H).
  unfold dbFS; destruct (Channel_eqb _ _ && _); lra.
Qed.

(** The needle after a frame, in terms of the level before it. *)
Lemma animate_needle_level (t : R) (w : list R) (s : MeterState)
      (b : VUBallistics.t) :
  vuBallisticsRef s = Some b ->
  needleRotation (animate c t w s)
  = VUBallistics.level
      (fst (VUBallistics.process b (normalizedLevelOf c s w) (deltaTimeOf s t)))
    * 50 - 25.
Proof.
  intros Hb; rewrite (animate_needle c t w s b Hb), process_returns_level.
  reflexivity.
Qed.

End FrameFacts.

(** X10.  From the same state and at the same time, a window with a
    higher RMS never leaves the needle lower. *)
Theorem louder_window_higher_needle (c : Closure) (currentTime : R)
        (quiet loud : list R) (s : MeterState) (b : VUBallistics.t) :
  vuBallisticsRef s = Some b ->
  VUBallistics.constructed b ->
  lastTimeRef s <= currentTime ->
  rms quiet <= rms loud ->
  needleRotation (animate c currentTime quiet s)
  <= needleRotation (animate c currentTime loud s).
Proof.
  intros Hb Hc Ht Hr.
  rewrite !(animate_needle_level c _ _ s b Hb).
  pose proof (targetAngleOf_mono c s quiet loud Hr) as Hm.
  rewrite <- !normalizedLevelOf_target in Hm.
  pose proof (process_monotone b (normalizedLevelOf c s quiet)
                (normalizedLevelOf c s loud) (deltaTimeOf s currentTime) Hc
                (deltaTimeOf_nonneg s currentTime Ht) ltac:(lra)).
  lra.
Qed.

Lemma louder_window_higher_needle_witness :
  vuBallisticsRef fading = Some (VUBallistics.mk 0.3 0.3 0.95) /\
  lastTimeRef fading <= 3000 /\
  rms (repeat 0 32) <= rms (repeat 1 32) /\
  needleRotation (animate defaultClosure 3000 (repeat 0 32) fading)
  <= needleRotation (animate defaultClosure 3000 (repeat 1 32) fading).
Proof.
  assert (Ht : lastTimeRef fading <= 3000) by (cbn; lra).
  assert (Hr : rms (repeat 0 32) <= rms (repeat 1 32))
    by (rewrite loud_window_rms; unfold rms;
        rewrite sumOfSquares_silence
          by (apply Forall_forall; intros x Hx; apply repeat_spec in Hx;
              exact Hx);
        unfold Rdiv; rewrite Rmult_0_l, sqrt_0; lra).
  split; [reflexivity |]; split; [exact Ht |]; split; [exact Hr |].
  apply (louder_window_higher_needle defaultClosure 3000 _ _ fading _ eq_refl
           (conj eq_refl eq_refl) Ht Hr).
Defined.

Section LampTiming.

Variable c : Closure.
Hypothesis fade_pos : 0 < peakFadeMs c.




End LampTiming.



Section QuietSession.

Variable c : Closure.

Lemma animate_dark (t : R) (w : list R) (s : MeterState)
      (b : VUBallistics.t) :
  vuBallisticsRef s = Some b ->
  VUBallistics.constructed b ->
  VUBallistics.level b * 50 - 25 < clipThresholdDeg c ->
  lastClipTimeMsRef s = None ->
  lastTimeRef s <= t ->
  targetAngleOf c s w < clipThresholdDeg c ->
  let s' := animate c t w s in
  dark c s' /\
  exists b', vuBallisticsRef s' = Some b' /\ VUBallistics.constructed b' /\
             VUBallistics.level b' * 50 - 25 < clipThresholdDeg c.
Proof.
  intros Hb Hc Hl Hn Ht Hw s'.
  pose proof (process_no_overshoot b (normalizedLevelOf c s w)
                (deltaTimeOf s t) Hc (deltaTimeOf_nonneg s t Ht)) as [_ Hmax].
  cbn zeta in Hmax.
  rewrite <- normalizedLevelOf_target in Hw.
  set (l' := VUBallistics.level
               (fst (VUBallistics.process b (normalizedLevelOf c s w)
                                          (deltaTimeOf s t)))) in *.
  assert (Hl' : l' * 50 - 25 < clipThresholdDeg c).
  { revert Hmax; unfold Rmax; destruct (Rle_dec _ _); intros; lra. }
  assert (Hneedle : needleRotation s' < clipThresholdDeg c).
  { subst s'; rewrite (animate_needle_level c t w s b Hb); exact Hl'. }
  assert (Hclip : lastClipTimeMsRef s' = None).
  { subst s'; rewrite (animate_lastClip c t w s b Hb).
    destruct (Rge_dec _ _); [lra | exact Hn]. }
  pose proof (animate_lamp c t w s b Hb) as Hp; fold s' in Hp.
  rewrite Hclip, lamp_idle in Hp.
  unfold snapOff in Hp; destruct (Rle_dec 0 0.001); [| lra].
  injection Hp as Ha Hi.
  split; [repeat split; assumption |].
  exists (fst (VUBallistics.process b (normalizedLevelOf c s w)
                                    (deltaTimeOf s t))).
  split; [apply (animate_ballistics c t w s b Hb) |].
  split; [apply process_constructed; exact Hc | exact Hl'].
Qed.

Lemma trace_dark (frames : list Frame) :
  forall (s : MeterState) (b : VUBallistics.t),
  vuBallisticsRef s = Some b ->
  VUBallistics.constructed b ->
  VUBallistics.level b * 50 - 25 < clipThresholdDeg c ->
  lastClipTimeMsRef s = None ->
  nondecreasing (lastTimeRef s) (map fst frames) ->
  Forall (fun f => targetAngleOf c s (snd f) < clipThresholdDeg c) frames ->
  Forall (dark c) (trace c frames s).
Proof.
  induction frames as [| [t w] rest IH]; intros s b Hb Hc Hl Hn Hmono Hq;
    cbn [trace fst snd]; [constructor |].
  cbn [map fst nondecreasing] in Hmono; destruct Hmono as [Ht Hmono].
  pose proof (Forall_inv Hq) as Hw; cbn [snd] in Hw.
  pose proof (Forall_inv_tail Hq) as Hrest.
  destruct (animate_dark t w s b Hb Hc Hl Hn Ht Hw)
    as [Hd [b' [Hb' [Hc' Hl']]]].
  constructor; [exact Hd |].
  apply (IH _ b' Hb' Hc' Hl').
  - destruct Hd as [_ [Hnone _]]; exact Hnone.
  - rewrite (animate_lastTime c t w s b Hb); exact Hmono.
  - apply Forall_impl with (2 := Hrest); intros f Hf.
    unfold targetAngleOf in *.
    rewrite (animate_sourceChannels c t w s b Hb); exact Hf.
Qed.

End QuietSession.

(** X12.  The lamp needs a loud frame: in a session of a freshly mounted
    meter whose timestamps never run backwards, if the needle's target
    angle stays below the clip threshold in every frame, then in every
    frame the needle is below the threshold, no clip is recorded and the
    lamp is reported dark with intensity 0. *)
Theorem quiet_session_stays_dark (c : Closure) (channelCount : Z)
        (frames : list Frame) :
  -25 < clipThresholdDeg c ->
  nondecreasing 0 (map fst frames) ->
  Forall (fun f =>
            targetAngleOf c (connect c channelCount mounted) (snd f)
            < clipThresholdDeg c) frames ->
  Forall (dark c) (trace c frames (connect c channelCount mounted)).
Proof.
  intros Hthr Hmono Hq.
  apply (trace_dark c frames _ VUBallistics.new).
  - reflexivity.
  - exact constructed_new.
  - cbn [VUBallistics.new VUBallistics.level]; lra.
  - reflexivity.
  - exact Hmono.
  - exact Hq.
Qed.

Lemma quiet_session_stays_dark_witness :
  let frames := [(16, repeat 0 32); (33, repeat 0 32)] in
  -25 < clipThresholdDeg defaultClosure /\
  nondecreasing 0 (map fst frames) /\
  Forall (dark defaultClosure)
         (trace defaultClosure frames (connect defaultClosure 2 mounted)).
Proof.
  cbn zeta.
  assert (Hthr : -25 < clipThresholdDeg defaultClosure) by (cbn; lra).
  assert (Hmono : nondecreasing 0 (map fst [(16, repeat 0 32); (33, repeat 0 32)]))
    by (cbn [map fst nondecreasing]; lra).
  split; [exact Hthr |]; split; [exact Hmono |].
  apply (quiet_session_stays_dark defaultClosure 2 _ Hthr Hmono).
  assert (Hs : targetAngleOf defaultClosure (connect defaultClosure 2 mounted)
                 (repeat 0 32) < clipThresholdDeg defaultClosure).
  { unfold targetAngleOf, dbFS.
    rewrite dbFS_raw_silence
      by (apply Forall_forall; intros x Hx; apply repeat_spec in Hx; exact Hx).
    cbn; rewrite toAngle_floor by lra; lra. }
  repeat constructor; exact Hs.
Defined.

(** X13.  Running the effect again (a new source, another channel)
    starts the filter from level 0 but keeps the last clip time: in the
    first frame afterwards the needle is where one [process] call from
    level 0 puts it, over the time elapsed since the last frame of the
    earlier run, and a clip of the earlier run that is still within the
    hold time lights the lamp at full intensity, whatever that frame
    hears. *)
Theorem reconnect_first_frame (c : Closure) (channelCount : Z)
        (s : MeterState) (currentTime clipTime : R) (dataArray : list R) :
  0 <= peakHoldMs c ->
  lastClipTimeMsRef s = Some clipTime ->
  currentTime - clipTime <= peakHoldMs c ->
  let s1 := connect c channelCount s in
  let s' := animate c currentTime dataArray s1 in
  needleRotation s'
  = normalizedLevelOf c s1 dataArray
    * (1 - exp (- deltaTimeOf s currentTime / 0.3)) * 50 - 25 /\
  peakLampActive s' = true /\ peakLampIntensity s' = 1.
Proof.
  intros Hh Hclip Hin s1 s'.
  assert (Hb : vuBallisticsRef s1 = Some VUBallistics.new) by reflexivity.
  split.
  - subst s'; rewrite (animate_needle_level c _ _ s1 _ Hb).
    rewrite process_level by exact constructed_new.
    cbn [VUBallistics.new VUBallistics.level].
    replace (deltaTimeOf s1 currentTime) with (deltaTimeOf s currentTime)
      by reflexivity.
    ring.
  - pose proof (animate_lastClip c currentTime dataArray s1 _ Hb) as Hl.
    pose proof (animate_lamp c currentTime dataArray s1 _ Hb) as Hp.
    fold s' in Hl, Hp.
    assert (Hi : lampIntensity c (lastClipTimeMsRef s') currentTime = 1).
    { rewrite Hl; destruct (Rge_dec _ _).
      - apply lamp_hold; lra.
      - change (lastClipTimeMsRef s1) with (lastClipTimeMsRef s).
        rewrite Hclip; apply lamp_hold; exact Hin. }
    rewrite Hi in Hp; unfold snapOff in Hp.
    destruct (Rle_dec 1 0.001); [lra |].
    injection Hp as Ha Hint; split; assumption.
Qed.

Lemma reconnect_first_frame_witness :
  0 <= peakHoldMs defaultClosure /\
  lastClipTimeMsRef holding = Some 484 /\
  900 - 484 <= peakHoldMs defaultClosure /\
  peakLampIntensity
    (animate defaultClosure 900 (repeat 0 32) (connect defaultClosure 2 holding))
  = 1.
Proof.
  assert (Hh : 0 <= peakHoldMs defaultClosure) by (cbn; lra).
  assert (Hin : 900 - 484 <= peakHoldMs defaultClosure) by (cbn; lra).
  split; [exact Hh |]; split; [reflexivity |]; split; [exact Hin |].
  apply (reconnect_first_frame defaultClosure 2 holding 900 484 (repeat 0 32)
           Hh eq_refl Hin).
Defined.

(* ================================================================== *)
(** ** The analysis window *)

Section WindowLength.

Lemma round_near (x : R) :
  x - 0.5 < JSMath.round x <= x + 0.5.
Proof.
  unfold JSMath.round.
  pose proof (base_Int_part (x + 0.5)); lra.
Qed.

Lemma round_integer (z : Z) : JSMath.round (IZR z) = IZR z.
Proof.
  unfold JSMath.round; f_equal; symmetry; apply Int_part_spec; lra.
Qed.

Lemma round_mono (x y : R) : x <= y -> JSMath.round x <= JSMath.round y.
Proof.
  intros H; unfold JSMath.round.
  pose proof (base_Int_part (x + 0.5)) as Hx.
  pose proof (base_Int_part (y + 0.5)) as Hy.
  apply IZR_le.
  assert (Hlt : IZR (Int_part (x + 0.5)) < IZR (Int_part (y + 0.5) + 1))
    by (rewrite plus_IZR; lra).
  apply lt_IZR in Hlt; lia.
Qed.

Lemma ln_2_pos : 0 < ln 2.
Proof. rewrite <- ln_1; apply ln_increasing; lra. Qed.

Lemma log2_pow (n : nat) : JSMath.log2 (2 ^ n) = INR n.
Proof.
  unfold JSMath.log2; rewrite ln_pow by lra.
  pose proof ln_2_pos; field; lra.
Qed.

Lemma log2_le (x y : R) : 0 < x -> x <= y -> JSMath.log2 x <= JSMath.log2 y.
Proof.
  intros Hx [Hlt | ->]; [| lra].
  unfold JSMath.log2.
  pose proof ln_2_pos as H2.
  pose proof (ln_increasing x y Hx Hlt) as Hln.
  apply Rmult_le_compat_r; [| lra].
  left; apply Rinv_0_lt_compat; exact H2.
Qed.

Lemma pow2_log2 (x : R) : 0 < x -> JSMath.pow2 (JSMath.log2 x) = x.
Proof.
  intros Hx; unfold JSMath.pow2, JSMath.log2, Rpower.
  pose proof ln_2_pos.
  replace (ln x / ln 2 * ln 2) with (ln x) by (field; lra).
  apply exp_ln; exact Hx.
Qed.

Lemma pow2_half : JSMath.pow2 0.5 = sqrt 2.
Proof.
  unfold JSMath.pow2; replace 0.5 with (/ 2) by lra.
  apply Rpower_sqrt; lra.
Qed.

Lemma desiredSamples_range (sampleRate : R) :
  32 <= desiredSamples sampleRate <= 32768.
Proof.
  unfold desiredSamples, JS.max, JS.min; cbn zeta.
  split; [apply Rmax_l |].
  apply Rmax_lub; [lra | apply Rmin_l].
Qed.

End WindowLength.

Lemma sqrt_2_bounds : 1.41 < sqrt 2 < 1.42.
Proof.
  pose proof (sqrt_pos 2) as H0.
  pose proof (sqrt_sqrt 2 ltac:(lra)) as H2.
  split; nra.
Qed.

Lemma log2_sqrt_2 : JSMath.log2 (sqrt 2) = 0.5.
Proof.
  rewrite <- pow2_half; unfold JSMath.log2, JSMath.pow2.
  rewrite ln_Rpower; pose proof ln_2_pos; field; lra.
Qed.

Lemma log2_mult (x y : R) :
  0 < x -> 0 < y -> JSMath.log2 (x * y) = JSMath.log2 x + JSMath.log2 y.
Proof.
  intros Hx Hy; unfold JSMath.log2; rewrite ln_mult by assumption.
  pose proof ln_2_pos; field; lra.
Qed.

Lemma log2_lt (x y : R) : 0 < x -> x < y -> JSMath.log2 x < JSMath.log2 y.
Proof.
  intros Hx Hlt; unfold JSMath.log2.
  pose proof ln_2_pos as H2.
  pose proof (ln_increasing x y Hx Hlt) as Hln.
  apply Rmult_lt_compat_r; [| exact Hln].
  apply Rinv_0_lt_compat; exact H2.
Qed.

(** A power of two in range that is within a factor [sqrt 2] of the
    desired count is the one the effect picks. *)
Lemma fftSize_from_exponent (sampleRate : R) (k : nat) :
  (5 <= k <= 15)%nat ->
  2 ^ k <= desiredSamples sampleRate * sqrt 2 ->
  desiredSamples sampleRate < 2 ^ k * sqrt 2 ->
  fftSize sampleRate = 2 ^ k.
Proof.
  intros Hk Hle Hlt.
  pose proof (desiredSamples_range sampleRate) as [Hlo Hhi].
  set (d := desiredSamples sampleRate) in *.
  pose proof sqrt_2_bounds as Hs.
  assert (Hpk : 0 < 2 ^ k) by (apply pow_lt; lra).
  assert (H1 : INR k <= JSMath.log2 d + 0.5).
  { rewrite <- log2_pow, <- log2_sqrt_2, <- log2_mult by lra.
    apply log2_le; lra. }
  assert (H2 : JSMath.log2 d < INR k + 0.5).
  { rewrite <- log2_pow, <- log2_sqrt_2, <- log2_mult by lra.
    apply log2_lt; lra. }
  assert (Hr : JSMath.round (JSMath.log2 d) = INR k).
  { unfold JSMath.round; rewrite INR_IZR_INZ; f_equal; symmetry.
    apply Int_part_spec; rewrite <- INR_IZR_INZ; lra. }
  unfold fftSize; fold d; cbn zeta; rewrite Hr.
  unfold JSMath.pow2; rewrite Rpower_pow by lra.
  assert (Hb : 32 <= 2 ^ k <= 32768).
  { split.
    - replace 32 with (2 ^ 5) by lra. apply Rle_pow; [lra | lia].
    - replace 32768 with (2 ^ 15) by lra. apply Rle_pow; [lra | lia]. }
  unfold JS.max, JS.min; rewrite Rmin_right by lra; apply Rmax_right; lra.
Qed.

(** The usual sampling rates get a window of 2048 samples. *)
Example fftSize_48000 : fftSize 48000 = 2048.
Proof.
  assert (Hd : desiredSamples 48000 = 2400).
  { unfold desiredSamples, JS.max, JS.min; cbn zeta.
    rewrite Rmin_right, Rmax_right by lra; lra. }
  pose proof sqrt_2_bounds.
  replace 2048 with (2 ^ 11) by lra.
  apply fftSize_from_exponent; [lia | rewrite Hd; lra | rewrite Hd; lra].
Qed.

Example fftSize_44100 : fftSize 44100 = 2048.
Proof.
  assert (Hd : desiredSamples 44100 = 2205).
  { unfold desiredSamples, JS.max, JS.min; cbn zeta.
    rewrite Rmin_right, Rmax_right by lra; lra. }
  pose proof sqrt_2_bounds.
  replace 2048 with (2 ^ 11) by lra.
  apply fftSize_from_exponent; [lia | rewrite Hd; lra | rewrite Hd; lra].
Qed.

(** X14.  Whatever the sampling rate, [fftSize] is a power of two
    between 32 and 32768, the range an [AnalyserNode] accepts, so the
    window is never empty; it is the power of two nearest to the
    desired sample count on the logarithmic scale, within a factor
    [sqrt 2] of it. *)
Theorem fftSize_power_of_two (sampleRate : R) :
  exists k : nat,
    (5 <= k <= 15)%nat /\
    fftSize sampleRate = 2 ^ k /\
    32 <= fftSize sampleRate <= 32768 /\
    fftSize sampleRate <= desiredSamples sampleRate * sqrt 2 /\
    desiredSamples sampleRate < fftSize sampleRate * sqrt 2.
Proof.
  pose proof (desiredSamples_range sampleRate) as [Hlo Hhi].
  set (d := desiredSamples sampleRate) in *.
  assert (Hd : 0 < d) by lra.
  assert (Hy : 5 <= JSMath.log2 d <= 15).
  { split.
    - replace 5 with (INR 5) by (cbn [INR]; lra).
      rewrite <- log2_pow; apply log2_le; lra.
    - replace 15 with (INR 15) by (cbn [INR]; lra).
      rewrite <- log2_pow; apply log2_le; lra. }
  pose proof (round_near (JSMath.log2 d)) as Hr.
  unfold fftSize; fold d; cbn zeta.
  unfold JSMath.round in *.
  set (z := Int_part (JSMath.log2 d + 0.5)) in *.
  assert (Hz : (5 <= z <= 15)%Z).
  { split.
    - assert (H : IZR 4 < IZR z) by lra. apply lt_IZR in H; lia.
    - assert (H : IZR z < IZR 16) by lra. apply lt_IZR in H; lia. }
  exists (Z.to_nat z).
  assert (Hk : IZR z = INR (Z.to_nat z))
    by (rewrite INR_IZR_INZ, Z2Nat.id by lia; reflexivity).
  assert (Hp : JSMath.pow2 (IZR z) = 2 ^ Z.to_nat z)
    by (unfold JSMath.pow2; rewrite Hk; apply Rpower_pow; lra).
  assert (Hb : 32 <= 2 ^ Z.to_nat z <= 32768).
  { split.
    - replace 32 with (2 ^ 5) by lra. apply Rle_pow; [lra | lia].
    - replace 32768 with (2 ^ 15) by lra. apply Rle_pow; [lra | lia]. }
  rewrite Hp.
  assert (Hc : JS.max 32 (JS.min 32768 (2 ^ Z.to_nat z)) = 2 ^ Z.to_nat z).
  { unfold JS.max, JS.min; rewrite Rmin_right by lra; apply Rmax_right; lra. }
  rewrite Hc.
  split; [lia |]; split; [reflexivity |]; split; [exact Hb |].
  rewrite <- Hp.
  pose proof (pow2_log2 d Hd) as Hdy.
  pose proof pow2_half as Hh.
  unfold JSMath.pow2 in *.
  split.
  - rewrite <- Hdy at 1; rewrite <- Hh, <- Rpower_plus.
    apply Rle_Rpower; lra.
  - rewrite <- Hdy at 1; rewrite <- Hh, <- Rpower_plus.
    apply Rpower_lt; lra.
Qed.

(* ================================================================== *)
(** ** Sizes *)

Section Sizes.

Lemma aspect_value : aspect = 217 / 190.
Proof. reflexivity. Qed.

Lemma round_190 : JSMath.round (BASE_CONTAINER_WIDTH / aspect) = 190.
Proof.
  unfold aspect, BASE_CONTAINER_WIDTH, BASE_CONTAINER_HEIGHT.
  replace (217 / (217 / 190)) with (IZR 190) by (field; lra).
  apply round_integer.
Qed.

Lemma round_above (x : R) (z : Z) : IZR z - 0.5 <= x -> IZR z <= JSMath.round x.
Proof.
  intros H; unfold JSMath.round.
  pose proof (base_Int_part (x + 0.5)) as Hb.
  apply IZR_le.
  assert (Hlt : IZR z < IZR (Int_part (x + 0.5) + 1))
    by (rewrite plus_IZR; lra).
  apply lt_IZR in Hlt; lia.
Qed.

End Sizes.

(** X15.  [Meter] keeps the 217:190 aspect when one side is missing:
    with only a width the height is the width divided by the aspect,
    rounded to a whole pixel (at most half a pixel off), and likewise
    for only a height; with neither it is 217 by 190, which is also what
    a width of 217 alone gives; with both, the two are taken as given. *)
Theorem meterSize_aspect (w h : R) :
  meterSize None None = (217, 190) /\
  meterSize (Some w) (Some h) = (w, h) /\
  (fst (meterSize (Some w) None) = w /\
   Rabs (snd (meterSize (Some w) None) - w * 190 / 217) <= 0.5 /\
   exists z, snd (meterSize (Some w) None) = IZR z) /\
  (snd (meterSize None (Some h)) = h /\
   Rabs (fst (meterSize None (Some h)) - h * 217 / 190) <= 0.5 /\
   exists z, fst (meterSize None (Some h)) = IZR z) /\
  meterSize (Some 217) None = (217, 190).
Proof.
  split; [reflexivity |]; split; [reflexivity |].
  split; [| split].
  - cbn [meterSize fst snd]; split; [reflexivity |]; split.
    + pose proof (round_near (w / aspect)) as Hr.
      replace (w / aspect) with (w * 190 / 217) in *
        by (rewrite aspect_value; field; lra).
      apply Rabs_le; lra.
    + eexists; reflexivity.
  - cbn [meterSize fst snd]; split; [reflexivity |]; split.
    + pose proof (round_near (h * aspect)) as Hr.
      replace (h * aspect) with (h * 217 / 190) in *
        by (rewrite aspect_value; field; lra).
      apply Rabs_le; lra.
    + eexists; reflexivity.
  - cbn [meterSize]; f_equal; exact round_190.
Qed.

(** X16.  When a width is given, or no size at all, the [VUMeter]
    wrapper resolves the same size as its [Meter]s, and its container is
    exactly as wide as the meters with their gap: one meter in mono,
    two meters and 16 pixels in stereo. *)
Theorem wrapper_fits_meters (width height : option R) :
  width <> None \/ height = None ->
  wrapperSize width height = meterSize width height /\
  containerWidth true width height = fst (meterSize width height) /\
  containerWidth false width height
  = fst (meterSize width height) * 2 + 16.
Proof.
  intros H.
  assert (Hs : wrapperSize width height = meterSize width height).
  { destruct width as [w |], height as [h |];
      unfold wrapperSize, meterSize, JS.nullish; cbn zeta.
    - reflexivity.
    - reflexivity.
    - destruct H as [H | H]; [contradiction | discriminate].
    - f_equal; exact round_190. }
  unfold containerWidth; rewrite Hs; cbn zeta.
  split; [reflexivity |]; split; reflexivity.
Qed.

Lemma wrapper_fits_meters_witness :
  (Some 300 <> None \/ @None R = None) /\
  containerWidth false (Some 300) None = 300 * 2 + 16.
Proof.
  assert (H : Some 300 <> None \/ @None R = None) by (left; discriminate).
  split; [exact H |].
  apply (wrapper_fits_meters (Some 300) None H).
Defined.

(** X17.  When only a height is given the wrapper does not follow its
    [Meter]s: it keeps the width 217 while each meter takes the width
    that matches the height, so from a height of 191 on the container is
    narrower than what it holds. *)
Theorem wrapper_narrow_for_height_only (mono : bool) (h : R) :
  191 <= h ->
  let meterWidth := fst (meterSize None (Some h)) in
  fst (wrapperSize None (Some h)) = 217 /\
  218 <= meterWidth /\
  containerWidth mono None (Some h)
  < (if mono then meterWidth else meterWidth * 2 + 16).
Proof.
  intros Hh meterWidth; subst meterWidth.
  assert (Hw : 218 <= fst (meterSize None (Some h))).
  { cbn [meterSize fst]; apply (round_above _ 218).
    rewrite aspect_value; lra. }
  split; [reflexivity |]; split; [exact Hw |].
  unfold containerWidth, wrapperSize, JS.nullish; cbn zeta; cbn [fst].
  unfold BASE_CONTAINER_WIDTH; destruct mono; lra.
Qed.

Lemma wrapper_narrow_for_height_only_witness :
  191 <= 380 /\
  containerWidth false None (Some 380)
  < fst (meterSize None (Some 380)) * 2 + 16.
Proof.
  assert (H : 191 <= 380) by lra.
  split; [exact H |].
  apply (wrapper_narrow_for_height_only false 380 H).
Defined.



(* ================================================================== *)
(** ** Drawing *)

Section Drawing.


End Drawing.



(* ================================================================== *)
(** ** Colours *)

(** X21.  [adjust] always gives a whole number between 0 and 255, is
    monotone in the channel value for a non-negative factor, leaves a
    byte as it is for factor 1, and for a factor of at least 1 never
    darkens a byte. *)
Theorem adjust_byte (factor value : R) :
  (0 <= adjust factor value <= 255 /\ exists z, adjust factor value = IZR z) /\
  (forall value', 0 <= factor -> value <= value' ->
                  adjust factor value <= adjust factor value') /\
  (forall z, (0 <= z <= 255)%Z -> adjust 1 (IZR z) = IZR z) /\
  (forall z, (0 <= z <= 255)%Z -> 1 <= factor ->
             IZR z <= adjust factor (IZR z)).
Proof.
  unfold adjust, JS.min, JS.max.
  split; [split |].
  - split.
    + apply Rmin_glb; [lra | apply Rmax_l].
    + apply Rmin_l.
  - unfold Rmin, Rmax, JSMath.round.
    repeat destruct (Rle_dec _ _); eexists;
      try reflexivity; (exact (eq_refl (IZR 255)) || exact (eq_refl (IZR 0))).
  - split; [| split].
    + intros value' Hf Hv.
      apply Rle_min_compat_l, Rle_max_compat_l, round_mono; nra.
    + intros z Hz.
      replace (IZR z * 1) with (IZR z) by ring.
      rewrite round_integer.
      assert (0 <= IZR z <= 255) by (split; apply IZR_le; lia).
      rewrite Rmax_right, Rmin_right by lra; reflexivity.
    + intros z Hz Hf.
      assert (Hb : 0 <= IZR z <= 255) by (split; apply IZR_le; lia).
      apply Rmin_glb; [lra |].
      apply Rle_trans with (JSMath.round (IZR z * factor)); [| apply Rmax_r].
      apply round_above; nra.
Qed.

(* ================================================================== *)
(** ** The wrapper's meters *)

(** X22.  Every [Meter] a [VUMeter] renders gets the wrapper's reference
    level, -18 when none is given, so the default -20 of [Meter] itself
    never applies under the wrapper.  In mono mode there is one meter,
    on the [mono] channel; otherwise there are two, [left] and [right],
    and neither ever gets the +3.8 dB correction, whatever the source's
    channel count and whatever an earlier run left behind. *)
Theorem VUMeter_meters_reference (mono : option bool)
        (referenceLevel' : option R) (options : VUMeterOptions) :
  Forall (fun p => referenceLevel (closure p) = JS.nullish referenceLevel' (-18)
                   /\ prop_options p = options)
         (VUMeter_meters mono referenceLevel' options) /\
  (JS.nullish mono false = true ->
   map (fun p => channel (closure p)) (VUMeter_meters mono referenceLevel' options)
   = [ChMono]) /\
  (JS.nullish mono false = false ->
   map (fun p => channel (closure p)) (VUMeter_meters mono referenceLevel' options)
   = [ChLeft; ChRight] /\
   Forall (fun p =>
             forall channelCount s dataArray,
               dbFS (channel (closure p))
                    (sourceChannelsRef (connect (closure p) channelCount s))
                    dataArray
               = dbFS_raw dataArray)
          (VUMeter_meters mono referenceLevel' options)).
Proof.
  unfold VUMeter_meters; cbn zeta.
  destruct (JS.nullish mono false).
  - split; [repeat constructor |].
    split; [reflexivity | discriminate].
  - split; [repeat constructor |].
    split; [discriminate |].
    intros _; split; [reflexivity |].
    repeat constructor.
Qed.
